(** * klio_core.options: command-line option helpers

    A shallow embedding of [core/src/klio_core/options.py]: the
    [MutuallyExclusiveOption] subclass of [click.Option], the GCS location
    callback [_verify_gcs_uri], and the shared option factories [job_dir]
    and [config_file].

    Python sets of option names are [gset string]; the keyword arguments of
    an option declaration are a record of optional fields; the parsed
    options [opts] handed to [handle_parse_result] are a [gmap] from
    parameter names to values.  Raising is modelled by the [result] type.

    Python leaves the order in which a set is iterated open.  [elements]
    stands for it, and the properties are stated for the iterated list up
    to its order. *)

From Stdlib Require Import String Ascii List.
From stdpp Require Import base option gmap sets list strings.

Local Open Scope string_scope.

(** ** Python values and exceptions *)

(** The values that reach this module: [None] or a [str]. *)
Inductive pyval : Type :=
| PyNone
| PyStr (s : string).

(** Truth value of [if value:]. *)
Definition truthy (v : pyval) : bool :=
  match v with
  | PyNone => false
  | PyStr "" => false
  | PyStr _ => true
  end.

(** The exceptions raised on the paths modelled here.  [TypeError] is what
    [None + str] gives. *)
Inductive exn : Type :=
| UsageError (msg : string)
| BadParameter (msg : string)
| TypeError.

Inductive result (A : Type) : Type :=
| Return (a : A)
| Raise (e : exn).
Arguments Return {A} a.
Arguments Raise {A} e.

#[global] Instance result_ret : MRet result := λ A a, Return a.

#[global] Instance result_bind : MBind result := λ A B k m,
  match m with
  | Return a => k a
  | Raise e => Raise e
  end.

(** ** String helpers *)

(** [s.replace(old, new)] for one-character [old] and [new]. *)
Fixpoint replace (old new : ascii) (s : string) : string :=
  match s with
  | EmptyString => EmptyString
  | String c s' =>
      String (if Ascii.eqb c old then new else c) (replace old new s')
  end.

(** [sep.join(l)] *)
Definition join (sep : string) (l : list string) : string :=
  String.concat sep l.

(** [s.startswith(p)] *)
Definition startswith (s p : string) : bool := String.prefix p s.

(** [needle in s] on strings, used to say that a message mentions a flag. *)
Fixpoint contains (needle s : string) : bool :=
  String.prefix needle s ||
  match s with
  | EmptyString => false
  | String _ s' => contains needle s'
  end.

(** ** MutuallyExclusiveOption *)

Module MutuallyExclusiveOption.

(** [click.Path(exists=...)], the only parameter type this module uses. *)
Inductive param_type : Type :=
| Path (exists_ : bool).

(** Keyword arguments of an option declaration; [None] is an absent key. *)
Record kwargs : Type := {
  kw_type : option param_type;
  kw_help : option pyval;
  kw_default : option pyval;
  kw_mutually_exclusive : option (list string);
}.

(** [kwargs.pop("mutually_exclusive", [])] *)
Definition pop_mutually_exclusive (kw : kwargs) : list string * kwargs :=
  (default [] (kw_mutually_exclusive kw),
   {| kw_type := kw_type kw; kw_help := kw_help kw;
      kw_default := kw_default kw; kw_mutually_exclusive := None |}).

(** [kwargs["help"] = h] *)
Definition set_help (h : pyval) (kw : kwargs) : kwargs :=
  {| kw_type := kw_type kw; kw_help := Some h;
     kw_default := kw_default kw;
     kw_mutually_exclusive := kw_mutually_exclusive kw |}.

(** State of the base class [click.Option]: the declarations and keyword
    arguments its constructor received, and the parameter name it derived
    from the declarations. *)
Record click_Option : Type := {
  param_decls : list string;
  attrs : kwargs;
  name : string;
}.

Record t : Type := {
  base : click_Option;
  mut_ex_opts : gset string;
}.

(** [self.help]: the help text the base constructor was given. *)
Definition help (self : t) : option pyval := kw_help (attrs (base self)).

Definition _varname_to_opt_flag (var : string) : string :=
  "--" +:+ replace "_" "-" var.

(** The note appended to the help text, for the companions in the order
    [ms] in which the set is iterated. *)
Definition help_note (ms : list string) : string :=
  let mutex := map _varname_to_opt_flag ms in
  let mutex_fmted := map (λ m, "``" +:+ m +:+ "``") mutex in
  let ex_str := join ", " mutex_fmted in
  String "010" (String "010"
    ("**NOTE:** This option is mutually exclusive with " +:+
     "[" +:+ ex_str +:+ "].")).

(** The usage-error message for option [nm] and companions iterated as
    [ms]. *)
Definition usage_msg (nm : string) (ms : list string) : string :=
  let mutex := map (λ m, "`" +:+ _varname_to_opt_flag m +:+ "`") ms in
  let mutex := join ", " mutex in
  "Illegal usage: `" +:+ _varname_to_opt_flag nm +:+
  "` is mutually exclusive with " +:+ mutex +:+ ".".

Section Methods.

(** The host framework, taken as given: its context type, what the base
    [handle_parse_result] returns, that base method itself, and the rule by
    which the base constructor names a parameter after its flags. *)
Variable Ctx : Type.
Variable R : Type.
Variable super_handle_parse_result :
  click_Option → Ctx → gmap string pyval → list string → result R.
Variable click_name : list string → string.

(** The base constructor, [super().__init__], on the remaining arguments. *)
Definition super__init__ (args : list string) (kw : kwargs) : click_Option :=
  {| param_decls := args; attrs := kw; name := click_name args |}.

Definition __init__ (args : list string) (kw : kwargs) : result t :=
  let '(mutually_exclusive, kw) := pop_mutually_exclusive kw in
  let mut_ex_opts : gset string := list_to_set mutually_exclusive in
  let help_text := default (PyStr "") (kw_help kw) in
  kw ←
    (if bool_decide (mut_ex_opts ≠ ∅) then
       match help_text with
       | PyStr h =>
           Return (set_help (PyStr (h +:+ help_note (elements mut_ex_opts))) kw)
       | PyNone => Raise TypeError
       end
     else Return kw);
  Return {| base := super__init__ args kw; mut_ex_opts := mut_ex_opts |}.

(** What [handle_parse_result] itself does: raise, or return whatever the
    base method returns on the arguments it passes on. *)
Inductive outcome : Type :=
| Raised (e : exn)
| Delegated (ctx : Ctx) (opts : gmap string pyval) (args : list string).

Definition handle_parse_result (self : t) (ctx : Ctx)
    (opts : gmap string pyval) (args : list string) : outcome :=
  if bool_decide (mut_ex_opts self ∩ dom opts ≠ ∅)
     && bool_decide (name (base self) ∈ dom opts)
  then Raised (UsageError
                 (usage_msg (name (base self)) (elements (mut_ex_opts self))))
  else Delegated ctx opts args.

(** The method with the base class's handler plugged in. *)
Definition run_handle_parse_result (self : t) (ctx : Ctx)
    (opts : gmap string pyval) (args : list string) : result R :=
  match handle_parse_result self ctx opts args with
  | Raised e => Raise e
  | Delegated ctx' opts' args' =>
      super_handle_parse_result (base self) ctx' opts' args'
  end.

End Methods.

Arguments Raised {Ctx} e.
Arguments Delegated {Ctx} ctx opts args.
Arguments handle_parse_result {Ctx} self ctx opts args.
Arguments run_handle_parse_result {Ctx R} super_handle_parse_result
  self ctx opts args.

End MutuallyExclusiveOption.

Import MutuallyExclusiveOption.

(** ** The GCS location callback *)

Definition gcs_error_msg : string :=
  "Unsupported location type. Please provide a GCS location with " +:+
  "the `gs://` prefix.".

Definition _verify_gcs_uri {Ctx Param : Type} (ctx : Ctx) (param : Param)
    (value : pyval) : result pyval :=
  match value with
  | PyStr s =>
      if truthy value && negb (startswith s "gs://")
      then Raise (BadParameter gcs_error_msg)
      else Return value
  | PyNone => Return value
  end.

(** ** Common options *)

(** A command function under decoration: its body, and the parameters the
    option decorators have attached to it so far. *)
Record func (F : Type) : Type := {
  fn : F;
  __click_params__ : list MutuallyExclusiveOption.t;
}.
Arguments fn {F} _.
Arguments __click_params__ {F} _.

(** What a factory hands back: the decorated function (bare use) or the
    decorator still to be applied. *)
Inductive factory_value (F : Type) : Type :=
| Func (f : func F)
| Wrapper (w : func F → result (func F)).
Arguments Func {F} f.
Arguments Wrapper {F} w.

Definition job_dir_help : string :=
  "Job directory where the job's ``Dockerfile`` is located. " +:+
  "Defaults current working directory.".

Definition config_file_help : string :=
  "Path to config filename. If ``PATH`` is not absolute, it " +:+
  "will be treated relative to ``--job-dir``. Defaults to " +:+
  "``klio-job.yaml``.".

Section Factories.

Variable F : Type.
Variable click_name : list string → string.

(** [click.option] with [cls=MutuallyExclusiveOption], applied to [f]: the
    option object is constructed and attached to the function. *)
Definition click_option (decls : list string) (attrs : kwargs)
    (f : func F) : result (func F) :=
  o ← __init__ click_name decls attrs;
  Return {| fn := fn f; __click_params__ := __click_params__ f ++ [o] |}.

Definition job_dir (args : list (func F)) (mutex : option (list string))
    : result (factory_value F) :=
  let mutually_exclusive := default [] mutex in
  let wrapper := λ func,
    click_option ["-j"; "--job-dir"]
      {| kw_type := Some (Path true);
         kw_help := Some (PyStr job_dir_help);
         kw_default := None;
         kw_mutually_exclusive := Some mutually_exclusive |}
      func in
  match args with
  | a :: _ => f ← wrapper a; Return (Func f)
  | [] => Return (Wrapper wrapper)
  end.

Definition config_file (args : list (func F)) (mutex : option (list string))
    : result (factory_value F) :=
  let mutually_exclusive := default [] mutex in
  let wrapper := λ func,
    click_option ["-c"; "--config-file"]
      {| kw_type := Some (Path false);
         kw_help := Some (PyStr config_file_help);
         kw_default := None;
         kw_mutually_exclusive := Some mutually_exclusive |}
      func in
  match args with
  | a :: _ => f ← wrapper a; Return (Func f)
  | [] => Return (Wrapper wrapper)
  end.

End Factories.

Arguments click_option {F} click_name decls attrs f.
Arguments job_dir {F} click_name args mutex.
Arguments config_file {F} click_name args mutex.

(** ** The host framework

    The part of [click] that decides what an option declared by this module
    evaluates to: how a parameter is named after its flags, what
    [click.Path] accepts, and how the base [handle_parse_result] picks the
    supplied value or else the declared default. *)

Module Click.

(** What the process sees of its surroundings at parse time. *)
Record env : Type := {
  cwd : string;
  path_exists : string → bool;
  path_readable : string → bool;
}.

(** The dash prefix of a declaration, and what follows it. *)
Definition split_opt (opt : string) : string * string :=
  match opt with
  | String "-" (String "-" r) => ("--", r)
  | String "-" r => ("-", r)
  | _ => ("", opt)
  end.

Definition lower_ascii (c : ascii) : ascii :=
  let n := nat_of_ascii c in
  if (65 <=? n)%nat && (n <=? 90)%nat then ascii_of_nat (n + 32) else c.

Fixpoint lower (s : string) : string :=
  match s with
  | EmptyString => EmptyString
  | String c s' => String (lower_ascii c) (lower s')
  end.

(** The first declaration with the longest prefix wins. *)
Fixpoint longest (best : string * string) (ds : list string)
    : string * string :=
  match ds with
  | [] => best
  | d :: ds' =>
      let cand := split_opt d in
      longest
        (if (String.length (fst best) <? String.length (fst cand))%nat
         then cand else best) ds'
  end.

Definition name_of_decls (decls : list string) : string :=
  lower (replace "-" "_" (snd (longest ("", "") decls))).

(** [click.Path.convert], with the readability check that [click.Path]
    makes unless told otherwise. *)
Definition convert (e : env) (ty : option param_type) (v : string)
    : result pyval :=
  match ty with
  | Some (Path must_exist) =>
      if path_exists e v then
        if path_readable e v then Return (PyStr v)
        else Raise (BadParameter ("Path '" +:+ v +:+ "' is not readable."))
      else if must_exist
        then Raise (BadParameter ("Path '" +:+ v +:+ "' does not exist."))
        else Return (PyStr v)
  | None => Return (PyStr v)
  end.

(** The base [handle_parse_result]: the supplied value, else the declared
    default, else [None]; a value that is present is converted by the
    declared type.  Returns the value and the remaining arguments.
    Environment variables and the context's default map, which no
    declaration of this module sets up, are left out. *)
Definition handle_parse_result {Ctx : Type} (e : env) (o : click_Option)
    (ctx : Ctx) (opts : gmap string pyval) (args : list string)
    : result (pyval * list string) :=
  let value :=
    match opts !! name o with
    | Some v => v
    | None => default PyNone (kw_default (attrs o))
    end in
  match value with
  | PyNone => Return (PyNone, args)
  | PyStr s => v ← convert e (kw_type (attrs o)) s; Return (v, args)
  end.

End Click.

(** ** Vocabulary of the properties *)

(** The supplied names conflict with [self]: its own name is supplied and so
    is one of its companions. *)
Definition violation (self : MutuallyExclusiveOption.t)
    (opts : gmap string pyval) : Prop :=
  name (base self) ∈ dom opts ∧ ∃ m, m ∈ mut_ex_opts self ∧ m ∈ dom opts.

(** [msg] is the usage error of option [nm] naming the companions [X], each
    once, in some order. *)
Definition names_exactly (msg nm : string) (X : gset string) : Prop :=
  ∃ ms, ms ≡ₚ elements X ∧ msg = usage_msg nm ms.

(** ** A command line to try things on

    [--job-dir] declared exclusive with [--config-file] and [--image-tag],
    and an invocation [--job-dir /tmp --config-file x.yaml]. *)

Definition some_attrs : kwargs :=
  {| kw_type := Some (Path true); kw_help := Some (PyStr job_dir_help);
     kw_default := None;
     kw_mutually_exclusive := Some ["config_file"; "image_tag"] |}.

Definition some_option : MutuallyExclusiveOption.t :=
  {| base :=
       super__init__ Click.name_of_decls ["-j"; "--job-dir"]
         (set_help
            (PyStr (job_dir_help +:+ help_note ["config_file"; "image_tag"]))
            (snd (pop_mutually_exclusive some_attrs)));
     mut_ex_opts := {[ "config_file"; "image_tag" ]} |}.

Definition some_opts : gmap string pyval :=
  {[ "job_dir" := PyStr "/tmp"; "config_file" := PyStr "x.yaml" ]}.

Definition some_env : Click.env :=
  {| Click.cwd := "/home/klio/job";
     Click.path_exists := λ p, bool_decide (p = "/tmp");
     Click.path_readable := λ p, bool_decide (p = "/tmp") |}.

(** The same declaration with a companion listed twice. *)
Definition repeated_attrs : kwargs :=
  {| kw_type := Some (Path true); kw_help := Some (PyStr job_dir_help);
     kw_default := None;
     kw_mutually_exclusive :=
       Some ["config_file"; "image_tag"; "config_file"] |}.

(** A declaration without companions. *)
Definition plain_attrs : kwargs :=
  {| kw_type := Some (Path false); kw_help := Some (PyStr config_file_help);
     kw_default := None; kw_mutually_exclusive := None |}.

(** An option that lists itself among its companions. *)
Definition self_exclusive_option : MutuallyExclusiveOption.t :=
  {| base :=
       super__init__ Click.name_of_decls ["-j"; "--job-dir"]
         (set_help (PyStr (job_dir_help +:+ help_note ["job_dir"]))
            (snd (pop_mutually_exclusive some_attrs)));
     mut_ex_opts := {[ "job_dir" ]} |}.

(** Only the companion [--config-file] supplied. *)
Definition companion_only_opts : gmap string pyval :=
  {[ "config_file" := PyStr "x.yaml" ]}.

Definition some_func : func () := {| fn := (); __click_params__ := [] |}.

Definition no_opts : gmap string pyval := ∅.


Definition job_dir_only_opts : gmap string pyval :=
  {[ "job_dir" := PyStr "/tmp" ]}.


(** A base handler that rejects every value. *)
Definition failing_handler (o : click_Option) (ctx : ())
    (opts : gmap string pyval) (args : list string) : result () :=
  Raise (BadParameter "rejected").


(** * Properties *)

(** ** Strings *)

Lemma append_nil_l (s : string) : "" +:+ s = s.
Proof. reflexivity. Qed.

Lemma append_cons (c : ascii) (s r : string) :
  String c s +:+ r = String c (s +:+ r).
Proof. reflexivity. Qed.

Lemma append_assoc (a b c : string) : (a +:+ b) +:+ c = a +:+ (b +:+ c).
Proof.
  induction a as [|x a IH]; [done|]. by rewrite !append_cons, IH.
Qed.

Lemma length_replace old new s :
  String.length (replace old new s) = String.length s.
Proof. induction s as [|c s IH]; simpl; [done | by rewrite IH]. Qed.

Lemma get_replace old new s i :
  String.get i (replace old new s) =
  (λ c, if Ascii.eqb c old then new else c) <$> String.get i s.
Proof.
  revert i. induction s as [|c s IH]; intros [|i]; simpl; auto.
Qed.

Lemma prefix_append p s :
  String.prefix p s = true ↔ ∃ rest, s = p +:+ rest.
Proof.
  revert s. induction p as [|c p IH]; intros s.
  - split; [|by destruct s]. intros _. by exists s.
  - destruct s as [|d s]; simpl.
    + split; [done | by intros [r Hr]].
    + destruct (ascii_dec c d) as [->|Hne].
      * rewrite IH. split; intros [r Hr]; exists r;
          rewrite ?append_cons in *; congruence.
      * split; [done|]. intros [r Hr]. rewrite append_cons in Hr. congruence.
Qed.

Lemma contains_prefix needle s :
  String.prefix needle s = true → contains needle s = true.
Proof. destruct s; simpl; by intros ->. Qed.

Lemma contains_here needle rest : contains needle (needle +:+ rest) = true.
Proof. apply contains_prefix, prefix_append. eauto. Qed.

Lemma contains_cons needle c s :
  contains needle (String c s) =
  String.prefix needle (String c s) || contains needle s.
Proof. reflexivity. Qed.

Lemma contains_append_l needle p s :
  contains needle s = true → contains needle (p +:+ s) = true.
Proof.
  intros Hs. induction p as [|c p IH]; [done|].
  rewrite append_cons, contains_cons, IH. apply orb_true_r.
Qed.

Lemma contains_append_r needle s r :
  contains needle s = true → contains needle (s +:+ r) = true.
Proof.
  induction s as [|c s IH].
  - destruct needle; [|done]. intros _. rewrite append_nil_l. by destruct r.
  - rewrite contains_cons. intros [Hp | Hs]%orb_true_iff.
    + apply contains_prefix.
      apply prefix_append in Hp as [x Hx]. apply prefix_append.
      exists (x +:+ r). by rewrite <- append_assoc, <- Hx.
    + rewrite append_cons, contains_cons, (IH Hs). apply orb_true_r.
Qed.

(** A string that occurs in one item of a joined list occurs in the join. *)
Lemma contains_join needle sep (l : list string) x :
  x ∈ l → contains needle x = true → contains needle (join sep l) = true.
Proof.
  intros Hx Hc. unfold join.
  induction l as [|y l IH]; [by apply elem_of_nil in Hx|].
  apply elem_of_cons in Hx as [->|Hx].
  - destruct l; simpl; [done | by apply contains_append_r].
  - specialize (IH Hx). destruct l as [|z l]; [by apply elem_of_nil in Hx|].
    change (contains needle (y +:+ sep +:+ String.concat sep (z :: l)) = true).
    by do 2 apply contains_append_l.
Qed.

(** ** The flag-rendering rule *)

(** C5: [_varname_to_opt_flag] maps every identifier to the two characters
    [--] followed by the identifier itself, of the same length, in which
    each underscore has become a hyphen and every other character is kept;
    [an_option] becomes [--an-option]. *)
Theorem varname_to_opt_flag_spec (var : string) :
  String.length (_varname_to_opt_flag var) = 2 + String.length var
  ∧ String.get 0 (_varname_to_opt_flag var) = Some "-"%char
  ∧ String.get 1 (_varname_to_opt_flag var) = Some "-"%char
  ∧ (∀ i, String.get (2 + i) (_varname_to_opt_flag var) =
          (λ c, if Ascii.eqb c "_" then "-"%char else c) <$> String.get i var)
  ∧ _varname_to_opt_flag "an_option" = "--an-option".
Proof.
  unfold _varname_to_opt_flag. rewrite !append_cons, append_nil_l.
  simpl. rewrite length_replace. repeat split; auto using get_replace.
Qed.

(** ** The GCS location callback *)

(** C3: [_verify_gcs_uri] returns its value unchanged when the value is
    falsy ([None] or the empty string) or starts with [gs://]; on every
    other value it raises a bad-parameter error whose message asks for a
    location with the [gs://] prefix; whatever it returns is the value it
    was given. *)
Theorem verify_gcs_uri_spec {Ctx Param : Type} (ctx : Ctx) (param : Param)
    (value : pyval) :
  let passes :=
    value = PyNone ∨ value = PyStr "" ∨ ∃ rest, value = PyStr ("gs://" +:+ rest) in
  (passes → _verify_gcs_uri ctx param value = Return value)
  ∧ (¬ passes →
       _verify_gcs_uri ctx param value = Raise (BadParameter gcs_error_msg))
  ∧ (∀ v, _verify_gcs_uri ctx param value = Return v → v = value)
  ∧ contains "the `gs://` prefix" gcs_error_msg = true.
Proof.
  intros passes. unfold _verify_gcs_uri, startswith.
  destruct value as [|s]; simpl.
  - repeat split; try done; try congruence.
    intros Hn. destruct Hn. by left.
  - destruct (String.prefix "gs://" s) eqn:Hp.
    + rewrite andb_false_r. repeat split; try done; try congruence.
      intros Hn. destruct Hn. right; right.
      apply prefix_append in Hp as [r ->]. by exists r.
    + rewrite andb_true_r. destruct s as [|c s]; simpl.
      * repeat split; try done; try congruence.
        intros Hn. destruct Hn. by right; left.
      * repeat split; try done.
        intros [H|[H|[r H]]]; try done.
        assert (String c s = "gs://" +:+ r) as E by congruence.
        assert (String.prefix "gs://" (String c s) = true) as Hq
          by (apply prefix_append; by exists r).
        congruence.
Qed.

(** The inputs of the callback's description, run through the theorem. *)
Lemma verify_gcs_uri_spec_witness :
  _verify_gcs_uri () () (PyStr "gs://bucket/path") = Return (PyStr "gs://bucket/path")
  ∧ _verify_gcs_uri () () PyNone = Return PyNone
  ∧ _verify_gcs_uri () () (PyStr "s3://bucket") = Raise (BadParameter gcs_error_msg).
Proof.
  split; [|split].
  - apply (proj1 (verify_gcs_uri_spec () () (PyStr "gs://bucket/path"))).
    right; right. by exists "bucket/path".
  - apply (proj1 (verify_gcs_uri_spec () () PyNone)). by left.
  - apply (proj1 (proj2 (verify_gcs_uri_spec () () (PyStr "s3://bucket")))).
    intros [H|[H|[r H]]]; discriminate.
Defined.

(** ** Validation of the parse result *)

Lemma intersection_nonempty (X Y : gset string) :
  X ∩ Y ≠ ∅ ↔ ∃ m, m ∈ X ∧ m ∈ Y.
Proof.
  split.
  - intros [m Hm%elem_of_intersection]%set_choose_L. eauto.
  - intros (m & HX & HY). set_solver.
Qed.

Section HandleParseResult.

Context {Ctx R : Type}.
Variable super_handle_parse_result :
  click_Option → Ctx → gmap string pyval → list string → result R.

Implicit Types (self : MutuallyExclusiveOption.t) (ctx : Ctx)
  (opts : gmap string pyval) (args : list string).

(** The two ways through the method. *)
Lemma handle_parse_result_cases self ctx opts args :
  (violation self opts ∧
   handle_parse_result self ctx opts args =
   Raised (UsageError
             (usage_msg (name (base self)) (elements (mut_ex_opts self)))))
  ∨ (¬ violation self opts ∧
     handle_parse_result self ctx opts args = Delegated ctx opts args).
Proof.
  unfold handle_parse_result, violation.
  destruct (bool_decide (mut_ex_opts self ∩ dom opts ≠ ∅)) eqn:Hi;
    destruct (bool_decide (name (base self) ∈ dom opts)) eqn:Hn; simpl;
    [left | right ..]; (split; [|done]).
  - apply bool_decide_eq_true in Hi, Hn. by rewrite <- intersection_nonempty.
  - apply bool_decide_eq_false in Hn. by intros [? _].
  - apply bool_decide_eq_false in Hi. rewrite <- intersection_nonempty.
    by intros [_ ?].
  - apply bool_decide_eq_false in Hn. by intros [? _].
Qed.

Lemma raises_iff_violation self ctx opts args :
  (∃ e, handle_parse_result self ctx opts args = Raised e)
  ↔ violation self opts.
Proof.
  destruct (handle_parse_result_cases self ctx opts args) as [[Hv ->]|[Hv ->]].
  - split; eauto.
  - split; [by intros [e ?] | done].
Qed.

(** C1: handling the parse result raises, and then a usage error, exactly
    when the option's own name is among the supplied names and some
    companion is supplied too; in every other case, in particular when the
    option itself is not supplied, the call is handed on to the base
    handler with the same context, options and arguments. *)
Theorem handle_parse_result_spec self ctx opts args :
  ((∃ e, handle_parse_result self ctx opts args = Raised e)
     ↔ violation self opts)
  ∧ (∀ e, handle_parse_result self ctx opts args = Raised e →
          ∃ msg, e = UsageError msg)
  ∧ (¬ violation self opts →
       handle_parse_result self ctx opts args = Delegated ctx opts args
       ∧ run_handle_parse_result super_handle_parse_result self ctx opts args
         = super_handle_parse_result (base self) ctx opts args)
  ∧ (name (base self) ∉ dom opts →
       handle_parse_result self ctx opts args = Delegated ctx opts args).
Proof.
  split; [apply raises_iff_violation|].
  unfold run_handle_parse_result.
  destruct (handle_parse_result_cases self ctx opts args) as [[Hv ->]|[Hv ->]].
  - split; [|split].
    + intros e [= <-]. eauto.
    + done.
    + intros Hn. by destruct Hv.
  - by repeat split.
Qed.

(** C9: when the companion set of an option contains the option's own
    name, every invocation that supplies the option is rejected with the
    usage error, and the option is listed among its own companions. *)
Theorem self_companion_always_rejected self ctx opts args :
  name (base self) ∈ mut_ex_opts self →
  name (base self) ∈ dom opts →
  ∃ ms, name (base self) ∈ ms
    ∧ handle_parse_result self ctx opts args =
      Raised (UsageError (usage_msg (name (base self)) ms))
    ∧ run_handle_parse_result super_handle_parse_result self ctx opts args =
      Raise (UsageError (usage_msg (name (base self)) ms)).
Proof.
  intros Hm Hs. exists (elements (mut_ex_opts self)).
  unfold run_handle_parse_result.
  destruct (handle_parse_result_cases self ctx opts args) as [[Hv ->]|[Hv _]].
  - by rewrite elem_of_elements.
  - destruct Hv. split; eauto.
Qed.

End HandleParseResult.

(** ** The text of the usage error *)

Lemma append_nil_r (s : string) : s +:+ "" = s.
Proof. induction s as [|c s IH]; [done|]. by rewrite append_cons, IH. Qed.

Lemma contains_refl (s : string) : contains s s = true.
Proof. apply contains_prefix, prefix_append. exists "". by rewrite append_nil_r. Qed.

Lemma usage_msg_own_flag nm ms :
  contains ("`" +:+ _varname_to_opt_flag nm +:+ "`") (usage_msg nm ms) = true.
Proof.
  unfold usage_msg.
  change (contains ("`" +:+ _varname_to_opt_flag nm +:+ "`")
            ("Illegal usage: " +:+ "`" +:+ _varname_to_opt_flag nm +:+ "`" +:+
             " is mutually exclusive with " +:+
             join ", " (map (λ m, "`" +:+ _varname_to_opt_flag m +:+ "`") ms)
             +:+ ".") = true).
  apply contains_append_l.
  rewrite <- (append_assoc (_varname_to_opt_flag nm) "`").
  rewrite <- (append_assoc "`" (_varname_to_opt_flag nm +:+ "`")).
  apply contains_here.
Qed.

Lemma usage_msg_companion nm ms m :
  m ∈ ms →
  contains ("`" +:+ _varname_to_opt_flag m +:+ "`") (usage_msg nm ms) = true.
Proof.
  intros Hm. unfold usage_msg. do 3 apply contains_append_l.
  apply contains_append_r.
  apply contains_join with (x := "`" +:+ _varname_to_opt_flag m +:+ "`").
  - apply (list_elem_of_fmap_2 (λ m, "`" +:+ _varname_to_opt_flag m +:+ "`")).
    exact Hm.
  - apply contains_refl.
Qed.

(** C2, as the code has it: whenever the mutual-exclusivity error is
    raised, its message names the option's own flag and every companion of
    the declared set, supplied or not, each once and each as a long flag
    between backticks. *)
Theorem usage_msg_names_declared_companions {Ctx : Type}
    (self : MutuallyExclusiveOption.t) (ctx : Ctx)
    (opts : gmap string pyval) (args : list string) (msg : string) :
  handle_parse_result self ctx opts args = Raised (UsageError msg) →
  names_exactly msg (name (base self)) (mut_ex_opts self)
  ∧ contains ("`" +:+ _varname_to_opt_flag (name (base self)) +:+ "`") msg
    = true
  ∧ ∀ m, m ∈ mut_ex_opts self →
         contains ("`" +:+ _varname_to_opt_flag m +:+ "`") msg = true.
Proof.
  destruct (handle_parse_result_cases self ctx opts args) as [[_ ->]|[_ ->]];
    [|done].
  intros [= <-]. split; [|split].
  - by exists (elements (mut_ex_opts self)).
  - apply usage_msg_own_flag.
  - intros m Hm. apply usage_msg_companion. by apply elem_of_elements.
Qed.

(** The option of the running example is what the constructor builds. *)
Example some_option_constructed :
  __init__ Click.name_of_decls ["-j"; "--job-dir"] some_attrs
  = Return some_option.
Proof. vm_compute. reflexivity. Qed.

Lemma usage_msg_names_declared_companions_witness :
  ∃ msg,
    handle_parse_result some_option () some_opts [] = Raised (UsageError msg)
    ∧ names_exactly msg "job_dir" {[ "config_file"; "image_tag" ]}.
Proof.
  eexists. split; [vm_compute; reflexivity|].
  apply (usage_msg_names_declared_companions some_option () some_opts []).
  vm_compute. reflexivity.
Defined.

(** C2 as stated fails: [--job-dir] is declared exclusive with
    [--config-file] and [--image-tag]; on [--job-dir /tmp --config-file
    x.yaml] the only companion in violation is [config_file], yet the
    message also names [--image-tag], which was not supplied. *)
Lemma usage_msg_names_unsupplied_companion :
  ∃ msg,
    handle_parse_result some_option () some_opts [] = Raised (UsageError msg)
    ∧ name (base some_option) = "job_dir"
    ∧ mut_ex_opts some_option ∩ dom some_opts = {[ "config_file" ]}
    ∧ ("image_tag" ∉ dom some_opts)
    ∧ contains "`--image-tag`" msg = true
    ∧ ¬ names_exactly msg "job_dir" (mut_ex_opts some_option ∩ dom some_opts).
Proof.
  eexists. split; [vm_compute; reflexivity|].
  assert (mut_ex_opts some_option ∩ dom some_opts = {[ "config_file" ]}) as Hi
    by (vm_compute; reflexivity).
  split; [reflexivity|]. split; [exact Hi|]. split; [by vm_compute|].
  split; [vm_compute; reflexivity|].
  rewrite Hi. intros (ms & Hp & Hmsg).
  rewrite elements_singleton in Hp. apply Permutation_singleton_r in Hp.
  subst ms. vm_compute in Hmsg. discriminate Hmsg.
Qed.

(** ** Construction *)

Lemma list_to_set_empty_iff (l : list string) :
  (list_to_set l : gset string) = ∅ ↔ l = [].
Proof.
  split; [|by intros ->]. destruct l as [|x l]; [done|].
  intros H. assert (x ∈ (∅ : gset string)) as Hx
    by (rewrite <- H; set_solver).
  by apply not_elem_of_empty in Hx.
Qed.

Section Construction.

Context {Ctx R : Type}.
Variable super_handle_parse_result :
  click_Option → Ctx → gmap string pyval → list string → result R.
Variable click_name : list string → string.

Implicit Types (args : list string) (kw : kwargs) (ctx : Ctx)
  (opts : gmap string pyval).

(** The three ways through the constructor: no companions, companions with
    a help text to extend, companions with [help=None]. *)
Lemma init_cases args kw :
  let l := default [] (kw_mutually_exclusive kw) in
  let kw0 := snd (pop_mutually_exclusive kw) in
  (l = [] ∧
   __init__ click_name args kw =
   Return {| base := super__init__ click_name args kw0; mut_ex_opts := ∅ |})
  ∨ (l ≠ [] ∧ ∃ h, default (PyStr "") (kw_help kw) = PyStr h ∧
     __init__ click_name args kw =
     Return {| base := super__init__ click_name args
                 (set_help
                    (PyStr (h +:+ help_note (elements (list_to_set l : gset string))))
                    kw0);
               mut_ex_opts := list_to_set l |})
  ∨ (l ≠ [] ∧ kw_help kw = Some PyNone ∧
     __init__ click_name args kw = Raise TypeError).
Proof.
  intros l kw0. unfold __init__, pop_mutually_exclusive. fold l. simpl.
  case_bool_decide as Hl.
  - right. rewrite list_to_set_empty_iff in Hl.
    destruct (kw_help kw) as [[|h]|] eqn:Hh; simpl.
    + right. done.
    + left. split; [done|]. by exists h.
    + left. split; [done|]. by exists "".
  - left. split; [by apply list_to_set_empty_iff|].
    simpl. by rewrite Hl.
Qed.

(** C4: an option constructed with an empty companion set is a plain
    option: the base constructor receives the caller's keyword arguments
    without the [mutually_exclusive] key and with the help text as given,
    and handling a parse result is the base handler's, whatever names are
    supplied. *)
Theorem empty_companions_plain_option args kw :
  default [] (kw_mutually_exclusive kw) = [] →
  ∃ self,
    __init__ click_name args kw = Return self
    ∧ base self
      = super__init__ click_name args (snd (pop_mutually_exclusive kw))
    ∧ help self = kw_help kw
    ∧ ∀ ctx opts a,
        handle_parse_result self ctx opts a = Delegated ctx opts a
        ∧ run_handle_parse_result super_handle_parse_result self ctx opts a
          = super_handle_parse_result (base self) ctx opts a.
Proof.
  intros Hl.
  destruct (init_cases args kw) as [[_ ->]|[[Hne _]|[Hne _]]]; [|done..].
  eexists. split; [done|]. split; [done|]. split; [done|].
  intros ctx opts a. unfold run_handle_parse_result.
  match goal with
  | |- context [handle_parse_result ?o ctx opts a] =>
      destruct (handle_parse_result_cases o ctx opts a)
        as [[(_ & m & Hm & _) _]|[_ ->]]
  end; [|done].
  by apply not_elem_of_empty in Hm.
Qed.

(** C6: constructed with a non-empty companion list and a help text [h]
    (the empty text when none is given), the option stores [h] followed by
    a blank line and the note, which lists every companion once, as a long
    flag between double backticks. *)
Theorem help_text_extended args kw (h : string) :
  default [] (kw_mutually_exclusive kw) ≠ [] →
  default (PyStr "") (kw_help kw) = PyStr h →
  ∃ self ms,
    __init__ click_name args kw = Return self
    ∧ NoDup ms
    ∧ (∀ m, m ∈ ms ↔ m ∈ default [] (kw_mutually_exclusive kw))
    ∧ help self =
      Some (PyStr
        (h +:+ String "010" (String "010"
           ("**NOTE:** This option is mutually exclusive with [" +:+
            join ", " (map (λ m, "``" +:+ _varname_to_opt_flag m +:+ "``") ms)
            +:+ "]."))))
    ∧ ∀ m, m ∈ default [] (kw_mutually_exclusive kw) →
        ∃ text, help self = Some (PyStr text)
          ∧ contains ("``" +:+ _varname_to_opt_flag m +:+ "``") text = true.
Proof.
  intros Hne Hh.
  destruct (init_cases args kw) as [[? _]|[(_ & h' & Hh' & ->)|(_ & Hn & _)]];
    [done| |by rewrite Hn in Hh].
  assert (h' = h) as -> by congruence.
  set (ms := elements (list_to_set (default [] (kw_mutually_exclusive kw))
                       : gset string)).
  assert (∀ m, m ∈ ms ↔ m ∈ default [] (kw_mutually_exclusive kw)) as Hms.
  { intros m. unfold ms. by rewrite elem_of_elements, elem_of_list_to_set. }
  exists {| base := super__init__ click_name args
              (set_help (PyStr (h +:+ help_note ms))
                 (snd (pop_mutually_exclusive kw)));
            mut_ex_opts := list_to_set (default [] (kw_mutually_exclusive kw)) |}, ms.
  split; [done|]. split; [apply NoDup_elements|]. split; [done|].
  assert (help_note ms =
          String "010" (String "010"
           ("**NOTE:** This option is mutually exclusive with [" +:+
            join ", " (map (λ m, "``" +:+ _varname_to_opt_flag m +:+ "``") ms)
            +:+ "]."))) as Hnote.
  { unfold help_note. by rewrite map_map. }
  split.
  - unfold help. simpl. by rewrite Hnote.
  - intros m Hm%Hms. eexists. split; [reflexivity|].
    apply contains_append_l. rewrite Hnote.
    change (String "010" (String "010" ?x)) with
      (String "010" (String "010" "") +:+ x).
    do 2 apply contains_append_l. apply contains_append_r.
    apply contains_join with (x := "``" +:+ _varname_to_opt_flag m +:+ "``").
    + by apply (list_elem_of_fmap_2
                  (λ m, "``" +:+ _varname_to_opt_flag m +:+ "``")).
    + apply contains_refl.
Qed.

(** C10: the companions are kept as a set.  The companions iterated for
    the help note and for the usage error are the listed names without
    repetition; and a second declaration that lists the same names, however
    often, stores the same set and rejects exactly the same invocations. *)
Theorem companions_deduplicated args kw self :
  __init__ click_name args kw = Return self →
  let l := default [] (kw_mutually_exclusive kw) in
  ∃ ms,
    NoDup ms
    ∧ (∀ m, m ∈ ms ↔ m ∈ l)
    ∧ (l ≠ [] → ∃ h, default (PyStr "") (kw_help kw) = PyStr h
                   ∧ help self = Some (PyStr (h +:+ help_note ms)))
    ∧ (∀ ctx opts a msg,
         handle_parse_result self ctx opts a = Raised (UsageError msg) →
         msg = usage_msg (name (base self)) ms)
    ∧ (∀ kw' self',
         (∀ m, m ∈ default [] (kw_mutually_exclusive kw') ↔ m ∈ l) →
         __init__ click_name args kw' = Return self' →
         mut_ex_opts self' = mut_ex_opts self
         ∧ ∀ ctx opts a,
             (∃ e, handle_parse_result self ctx opts a = Raised e)
             ↔ (∃ e, handle_parse_result self' ctx opts a = Raised e)).
Proof.
  intros Hinit l.
  assert (mut_ex_opts self = list_to_set l ∧
          name (base self) = click_name args ∧
          (l ≠ [] → ∃ h, default (PyStr "") (kw_help kw) = PyStr h
             ∧ help self =
               Some (PyStr (h +:+ help_note (elements (mut_ex_opts self))))))
    as (Hmut & Hname & Hhelp).
  { destruct (init_cases args kw)
      as [[Hl E]|[(Hl & h & Hh & E)|(_ & _ & E)]];
      rewrite E in Hinit; [| |done]; injection Hinit as <-; simpl.
    - fold l in Hl. rewrite Hl. done.
    - split; [done|]. split; [done|]. intros _. by exists h. }
  exists (elements (mut_ex_opts self)).
  split; [apply NoDup_elements|].
  split; [intros m; by rewrite elem_of_elements, Hmut, elem_of_list_to_set|].
  split; [done|]. split.
  - intros ctx opts a msg.
    destruct (handle_parse_result_cases self ctx opts a) as [[_ ->]|[_ ->]];
      [|done].
    by intros [= <-].
  - intros kw' self' Hsame Hinit'.
    assert (mut_ex_opts self' = mut_ex_opts self
            ∧ name (base self') = name (base self)) as [Hmut' Hname'].
    { rewrite Hmut, Hname.
      destruct (init_cases args kw')
        as [[Hl E]|[(Hl & h & Hh & E)|(_ & _ & E)]];
        rewrite E in Hinit'; [| |done]; injection Hinit' as <-; simpl;
        (split; [|done]); apply set_eq; intros m;
        rewrite !elem_of_list_to_set, <- Hsame; [|done].
      rewrite Hl. by rewrite elem_of_empty, elem_of_nil. }
    split; [done|]. intros ctx opts a.
    rewrite !raises_iff_violation.
    unfold violation. by rewrite Hmut', Hname'.
Qed.

End Construction.

(** ** The shared options *)

Section SharedOptions.

Context {F : Type}.
Variable click_name : list string → string.

Implicit Types (f : func F) (kw : kwargs).

(** Decorating with a string help text cannot fail: the option is built
    from the declaration as written, apart from the note added to the help
    text, and joins the function's parameters. *)
Lemma click_option_attaches decls kw f h :
  kw_help kw = Some (PyStr h) →
  ∃ o note,
    click_option click_name decls kw f =
    Return {| fn := fn f; __click_params__ := __click_params__ f ++ [o] |}
    ∧ param_decls (base o) = decls
    ∧ name (base o) = click_name decls
    ∧ kw_type (attrs (base o)) = kw_type kw
    ∧ kw_default (attrs (base o)) = kw_default kw
    ∧ mut_ex_opts o = list_to_set (default [] (kw_mutually_exclusive kw))
    ∧ help o = Some (PyStr (h +:+ note))
    ∧ (default [] (kw_mutually_exclusive kw) = [] → note = "").
Proof.
  intros Hh. unfold click_option.
  destruct (init_cases click_name decls kw)
    as [[Hl ->]|[(Hl & h' & Hh' & ->)|(_ & Hn & _)]]; [| |congruence].
  - eexists _, "". simpl. rewrite Hl, append_nil_r. by repeat split.
  - rewrite Hh in Hh'. injection Hh' as <-.
    eexists _, _. simpl. repeat split; try done.
Qed.

(** C8: for [job_dir] and for [config_file], calling the factory with no
    arguments gives a decorator, and using the factory bare on a function
    gives what that decorator gives on the function: the function with one
    more option, whose companion set is empty. *)
Theorem bare_and_called_agree f :
  (∃ w o,
     job_dir click_name [] None = Return (Wrapper w)
     ∧ job_dir click_name [f] None = (f' ← w f; Return (Func f'))
     ∧ w f = Return {| fn := fn f;
                       __click_params__ := __click_params__ f ++ [o] |}
     ∧ mut_ex_opts o = ∅)
  ∧ (∃ w o,
       config_file click_name [] None = Return (Wrapper w)
       ∧ config_file click_name [f] None = (f' ← w f; Return (Func f'))
       ∧ w f = Return {| fn := fn f;
                         __click_params__ := __click_params__ f ++ [o] |}
       ∧ mut_ex_opts o = ∅).
Proof.
  split.
  - unfold job_dir. simpl.
    match goal with
    | |- context [click_option click_name ?d ?kw f] =>
        destruct (click_option_attaches d kw f _ eq_refl)
          as (o & note & E & _ & _ & _ & _ & Hmut & _)
    end.
    eexists _, o. split; [reflexivity|]. split; [reflexivity|].
    split; [exact E | exact Hmut].
  - unfold config_file. simpl.
    match goal with
    | |- context [click_option click_name ?d ?kw f] =>
        destruct (click_option_attaches d kw f _ eq_refl)
          as (o & note & E & _ & _ & _ & _ & Hmut & _)
    end.
    eexists _, o. split; [reflexivity|]. split; [reflexivity|].
    split; [exact E | exact Hmut].
Qed.

(** C7, as the code has it: [-j/--job-dir] is declared with the type of an
    existing path and without a default; its help text says that the
    current working directory is the default.  Under the host framework a
    supplied path is rejected with a bad-parameter error when it does not
    exist and accepted when it exists and can be read, and when the option
    is not supplied its value is [None], whatever the working directory. *)
Theorem job_dir_declaration f (mutex : option (list string)) :
  ∃ o,
    job_dir click_name [f] mutex =
    Return (Func {| fn := fn f;
                    __click_params__ := __click_params__ f ++ [o] |})
    ∧ param_decls (base o) = ["-j"; "--job-dir"]
    ∧ kw_type (attrs (base o)) = Some (Path true)
    ∧ kw_default (attrs (base o)) = None
    ∧ (∃ text, help o = Some (PyStr text)
         ∧ contains "Defaults current working directory." text = true)
    ∧ ∀ (Ctx : Type) (env : Click.env) (ctx : Ctx) opts args,
        ¬ violation o opts →
        (opts !! name (base o) = None →
           run_handle_parse_result (Click.handle_parse_result env)
             o ctx opts args = Return (PyNone, args))
        ∧ (∀ p, opts !! name (base o) = Some (PyStr p) →
             (Click.path_exists env p = true →
              Click.path_readable env p = true →
                run_handle_parse_result (Click.handle_parse_result env)
                  o ctx opts args = Return (PyStr p, args))
             ∧ (Click.path_exists env p = false →
                  ∃ msg,
                    run_handle_parse_result (Click.handle_parse_result env)
                      o ctx opts args = Raise (BadParameter msg))).
Proof.
  unfold job_dir.
  match goal with
  | |- context [click_option click_name ?d ?kw f] =>
      destruct (click_option_attaches d kw f _ eq_refl)
        as (o & note & -> & Hd & _ & Hty & Hdef & _ & Hhelp & _)
  end.
  simpl in Hty, Hdef. exists o.
  split; [reflexivity|]. split; [exact Hd|]. split; [exact Hty|].
  split; [exact Hdef|]. split.
  { eexists. split; [exact Hhelp|]. by apply contains_append_r. }
  intros Ctx env ctx opts args Hv. unfold run_handle_parse_result.
  destruct (handle_parse_result_cases o ctx opts args) as [[? _]|[_ ->]];
    [done|].
  unfold Click.handle_parse_result, Click.convert. rewrite Hty, Hdef.
  split.
  - by intros ->.
  - intros p ->. simpl. split; [by intros -> ->|]. intros ->. simpl. eauto.
Qed.

End SharedOptions.

(** C7 as stated fails: run from [/home/klio/job] without [--job-dir], the
    option evaluates to [None], not to the working directory. *)
Lemma job_dir_not_supplied_is_none :
  ∃ o,
    job_dir Click.name_of_decls [some_func] None =
    Return (Func {| fn := (); __click_params__ := [o] |})
    ∧ kw_default (attrs (base o)) = None
    ∧ run_handle_parse_result (Click.handle_parse_result some_env)
        o () no_opts [] = Return (PyNone, [])
    ∧ run_handle_parse_result (Click.handle_parse_result some_env)
        o () no_opts [] ≠ Return (PyStr (Click.cwd some_env), []).
Proof.
  eexists. split; [vm_compute; reflexivity|].
  split; [reflexivity|]. split; [vm_compute; reflexivity|].
  vm_compute. discriminate.
Qed.

(** ** The properties on the running example *)

Ltac by_evaluation := apply (bool_decide_unpack _); vm_compute; exact I.

Lemma handle_parse_result_spec_witness :
  handle_parse_result some_option () companion_only_opts []
  = Delegated () companion_only_opts []
  ∧ run_handle_parse_result (Click.handle_parse_result some_env)
      some_option () companion_only_opts []
    = Click.handle_parse_result some_env (base some_option) ()
        companion_only_opts [].
Proof.
  apply (proj1 (proj2 (proj2
    (handle_parse_result_spec (Click.handle_parse_result some_env)
       some_option () companion_only_opts [])))).
  intros [Hn _]. revert Hn. by_evaluation.
Defined.

Lemma self_companion_always_rejected_witness :
  ∃ ms, "job_dir" ∈ ms
    ∧ handle_parse_result self_exclusive_option () some_opts [] =
      Raised (UsageError (usage_msg "job_dir" ms))
    ∧ run_handle_parse_result (Click.handle_parse_result some_env)
        self_exclusive_option () some_opts [] =
      Raise (UsageError (usage_msg "job_dir" ms)).
Proof.
  apply (self_companion_always_rejected (Click.handle_parse_result some_env)
           self_exclusive_option () some_opts []); by_evaluation.
Defined.

Lemma empty_companions_plain_option_witness :
  ∃ self,
    __init__ Click.name_of_decls ["-c"; "--config-file"] plain_attrs
    = Return self
    ∧ base self
      = super__init__ Click.name_of_decls ["-c"; "--config-file"]
          (snd (pop_mutually_exclusive plain_attrs))
    ∧ help self = Some (PyStr config_file_help)
    ∧ ∀ (ctx : ()) opts a,
        handle_parse_result self ctx opts a = Delegated ctx opts a
        ∧ run_handle_parse_result (Click.handle_parse_result some_env)
            self ctx opts a
          = Click.handle_parse_result some_env (base self) ctx opts a.
Proof.
  apply (empty_companions_plain_option (Click.handle_parse_result some_env)
           Click.name_of_decls ["-c"; "--config-file"] plain_attrs).
  reflexivity.
Defined.

Lemma help_text_extended_witness :
  ∃ self ms,
    __init__ Click.name_of_decls ["-j"; "--job-dir"] some_attrs = Return self
    ∧ NoDup ms
    ∧ (∀ m, m ∈ ms ↔ m ∈ ["config_file"; "image_tag"])
    ∧ help self =
      Some (PyStr
        (job_dir_help +:+ String "010" (String "010"
           ("**NOTE:** This option is mutually exclusive with [" +:+
            join ", " (map (λ m, "``" +:+ _varname_to_opt_flag m +:+ "``") ms)
            +:+ "]."))))
    ∧ ∀ m, m ∈ ["config_file"; "image_tag"] →
        ∃ text, help self = Some (PyStr text)
          ∧ contains ("``" +:+ _varname_to_opt_flag m +:+ "``") text = true.
Proof.
  apply (help_text_extended Click.name_of_decls ["-j"; "--job-dir"]
           some_attrs job_dir_help).
  - simpl. discriminate.
  - reflexivity.
Defined.

Lemma companions_deduplicated_witness :
  ∃ ms,
    NoDup ms
    ∧ (∀ m, m ∈ ms ↔ m ∈ ["config_file"; "image_tag"; "config_file"])
    ∧ ∀ (ctx : ()) opts a msg,
        handle_parse_result some_option ctx opts a = Raised (UsageError msg) →
        msg = usage_msg "job_dir" ms.
Proof.
  destruct (companions_deduplicated (Ctx := ()) Click.name_of_decls
              ["-j"; "--job-dir"] repeated_attrs some_option)
    as (ms & Hnd & Hms & _ & Hmsg & _).
  - vm_compute. reflexivity.
  - exists ms. split; [exact Hnd|]. split; [exact Hms | exact Hmsg].
Defined.

(** * Further properties *)

(** ** The flag-rendering rule, continued *)

Lemma prefix_nil (s : string) : String.prefix "" s = true.
Proof. by destruct s. Qed.

Lemma contains_char_cons (a c : ascii) (s : string) :
  contains (String a "") (String c s) =
  Ascii.eqb a c || contains (String a "") s.
Proof.
  rewrite contains_cons. f_equal. simpl.
  destruct (ascii_dec a c) as [->|Hne].
  - by rewrite prefix_nil, Ascii.eqb_refl.
  - symmetry. by apply Ascii.eqb_neq.
Qed.

Lemma replace_has_no_old (old new : ascii) (s : string) :
  old ≠ new → contains (String old "") (replace old new s) = false.
Proof.
  intros Hne. induction s as [|c s IH]; [done|].
  simpl replace. rewrite contains_char_cons, IH, orb_false_r.
  destruct (Ascii.eqb c old) eqn:Hc.
  - by apply Ascii.eqb_neq.
  - by rewrite eqb_sym.
Qed.

Lemma replace_inj (old new : ascii) (s1 s2 : string) :
  contains (String new "") s1 = false →
  contains (String new "") s2 = false →
  replace old new s1 = replace old new s2 → s1 = s2.
Proof.
  revert s2. induction s1 as [|c1 s1 IH]; intros [|c2 s2]; try done.
  rewrite !contains_char_cons.
  intros [Hc1 Hs1]%orb_false_iff [Hc2 Hs2]%orb_false_iff. simpl.
  intros [= Hc Hs]. rewrite (IH s2 Hs1 Hs2 Hs). f_equal.
  apply Ascii.eqb_neq in Hc1, Hc2.
  destruct (Ascii.eqb_spec c1 old) as [->|?],
           (Ascii.eqb_spec c2 old) as [->|?]; congruence.
Qed.

(** X1: a rendered flag never contains an underscore. *)
Theorem flag_has_no_underscore (var : string) :
  contains "_" (_varname_to_opt_flag var) = false.
Proof.
  unfold _varname_to_opt_flag.
  rewrite !append_cons, append_nil_l, !contains_char_cons.
  by rewrite replace_has_no_old.
Qed.

(** X2: names without a hyphen, as identifiers are, are told apart by
    their flags: two different such names never render to the same flag. *)
Theorem flag_injective_without_hyphen (v1 v2 : string) :
  contains "-" v1 = false →
  contains "-" v2 = false →
  v1 ≠ v2 →
  _varname_to_opt_flag v1 ≠ _varname_to_opt_flag v2.
Proof.
  intros H1 H2 Hne. unfold _varname_to_opt_flag.
  rewrite !append_cons, !append_nil_l. intros [= H].
  by apply Hne, (replace_inj "_" "-").
Qed.

Lemma flag_injective_without_hyphen_witness :
  _varname_to_opt_flag "job_dir" ≠ _varname_to_opt_flag "config_file".
Proof.
  apply (flag_injective_without_hyphen "job_dir" "config_file");
    [vm_compute; reflexivity | vm_compute; reflexivity | discriminate].
Defined.

(** ** The GCS location callback, continued *)

(** X3: on a non-empty string the callback looks at the first five
    characters only: the string is returned exactly when they are [gs://],
    and rejected otherwise, so every non-empty string shorter than that is
    rejected. *)
Theorem verify_gcs_uri_first_five {Ctx Param : Type} (ctx : Ctx)
    (param : Param) (s : string) :
  s ≠ "" →
  (_verify_gcs_uri ctx param (PyStr s) = Return (PyStr s)
     ↔ substring 0 5 s = "gs://")
  ∧ (_verify_gcs_uri ctx param (PyStr s) = Raise (BadParameter gcs_error_msg)
       ↔ substring 0 5 s ≠ "gs://")
  ∧ (String.length s < 5 →
       _verify_gcs_uri ctx param (PyStr s)
       = Raise (BadParameter gcs_error_msg)).
Proof.
  intros Hs. unfold _verify_gcs_uri, startswith.
  assert (truthy (PyStr s) = true) as -> by (by destruct s).
  pose proof (prefix_correct "gs://" s) as Hp.
  change (String.length "gs://") with 5 in Hp.
  destruct (String.prefix "gs://" s) eqn:E; simpl.
  - assert (substring 0 5 s = "gs://") as Hsub by (by apply Hp).
    split; [done|]. split; [split; [done | by intros []]|].
    intros Hlen. apply prefix_append in E as [r ->].
    rewrite !append_cons in Hlen. simpl in Hlen. lia.
  - assert (substring 0 5 s ≠ "gs://") as Hsub.
    { intros H. apply Hp in H. done. }
    split; [split; [done | by intros ?]|]. split; [done|]. done.
Qed.

Lemma verify_gcs_uri_first_five_witness :
  _verify_gcs_uri () () (PyStr "gs:/") = Raise (BadParameter gcs_error_msg).
Proof.
  apply (proj2 (proj2 (verify_gcs_uri_first_five () () "gs:/" ltac:(discriminate)))).
  simpl. lia.
Defined.

(** ** Validation of the parse result, continued *)

Section Rejection.

Context {Ctx : Type}.

Implicit Types (self : MutuallyExclusiveOption.t) (ctx : Ctx)
  (opts : gmap string pyval) (args : list string).



(** X6: with nothing supplied the call is always handed on; with the
    option supplied alone it is rejected exactly when the option lists
    itself as a companion. *)
Theorem alone_or_nothing self ctx opts args :
  (dom opts = ∅ →
     handle_parse_result self ctx opts args = Delegated ctx opts args)
  ∧ (dom opts = {[ name (base self) ]} →
       ((∃ e, handle_parse_result self ctx opts args = Raised e)
          ↔ name (base self) ∈ mut_ex_opts self)).
Proof.
  split.
  - intros Hd.
    destruct (handle_parse_result_cases self ctx opts args)
      as [[[Hn _] _]|[_ ->]]; [|done].
    rewrite Hd in Hn. by apply not_elem_of_empty in Hn.
  - intros Hd. rewrite raises_iff_violation. unfold violation. rewrite Hd.
    split.
    + intros (_ & m & Hm & ->%elem_of_singleton). done.
    + intros Hm. split; [by apply elem_of_singleton|].
      exists (name (base self)). split; [done | by apply elem_of_singleton].
Qed.

(** X7: the mutual-exclusivity check comes before anything the base
    handler does: on a violation the usage error is the result whatever
    the base handler would have returned or raised. *)
Theorem violation_preempts_base {R : Type}
    (super_handle_parse_result :
       click_Option → Ctx → gmap string pyval → list string → result R)
    self ctx opts args :
  violation self opts →
  run_handle_parse_result super_handle_parse_result self ctx opts args
  = Raise (UsageError
             (usage_msg (name (base self)) (elements (mut_ex_opts self)))).
Proof.
  intros Hv. unfold run_handle_parse_result.
  by destruct (handle_parse_result_cases self ctx opts args)
    as [[_ ->]|[? _]].
Qed.

End Rejection.



Lemma alone_or_nothing_witness :
  handle_parse_result some_option () no_opts [] = Delegated () no_opts []
  ∧ ∃ e, handle_parse_result self_exclusive_option () job_dir_only_opts []
         = Raised e.
Proof.
  split.
  - apply (proj1 (alone_or_nothing some_option () no_opts [])).
    vm_compute. reflexivity.
  - apply (proj2 (alone_or_nothing self_exclusive_option ()
                    job_dir_only_opts [])).
    + vm_compute. reflexivity.
    + by_evaluation.
Defined.

Lemma violation_preempts_base_witness :
  run_handle_parse_result failing_handler some_option () some_opts []
  = Raise (UsageError
             (usage_msg "job_dir" (elements (mut_ex_opts some_option)))).
Proof.
  apply (violation_preempts_base failing_handler some_option () some_opts []).
  split; [by_evaluation|]. exists "config_file". split; by_evaluation.
Defined.

(** ** Construction, continued *)

Section ConstructionEdges.

Variable click_name : list string → string.

Implicit Types (args : list string) (kw : kwargs).


(** X9: what the constructor hands to the base constructor: the
    declarations and every keyword argument but [help] as given, and never
    the [mutually_exclusive] key; the stored set holds the listed names and
    no other. *)
Theorem init_passes_on args kw self :
  __init__ click_name args kw = Return self →
  param_decls (base self) = args
  ∧ name (base self) = click_name args
  ∧ kw_type (attrs (base self)) = kw_type kw
  ∧ kw_default (attrs (base self)) = kw_default kw
  ∧ kw_mutually_exclusive (attrs (base self)) = None
  ∧ ∀ m, m ∈ mut_ex_opts self ↔ m ∈ default [] (kw_mutually_exclusive kw).
Proof.
  destruct (init_cases click_name args kw)
    as [[Hl ->]|[(Hl & h & Hh & ->)|(Hl & Hn & ->)]]; [| |done];
    intros [= <-]; simpl; split_and!; try done; intros m.
  - rewrite Hl. by rewrite elem_of_empty, elem_of_nil.
  - apply elem_of_list_to_set.
Qed.

End ConstructionEdges.


Lemma init_passes_on_witness :
  name (base some_option) = "job_dir"
  ∧ kw_mutually_exclusive (attrs (base some_option)) = None.
Proof.
  destruct (init_passes_on Click.name_of_decls ["-j"; "--job-dir"]
              repeated_attrs some_option)
    as (_ & Hn & _ & _ & Hk & _).
  - vm_compute. reflexivity.
  - split; [exact Hn | exact Hk].
Defined.

(** ** The shared options, continued *)

Section Decorators.

Context {F : Type}.
Variable click_name : list string → string.

Implicit Types (f : func F) (kw : kwargs).

(** The option a decorator attaches does not depend on the function it is
    attached to. *)
Lemma click_option_total decls kw h :
  kw_help kw = Some (PyStr h) →
  ∃ o note,
    (∀ f, click_option click_name decls kw f =
          Return {| fn := fn f;
                    __click_params__ := __click_params__ f ++ [o] |})
    ∧ param_decls (base o) = decls
    ∧ name (base o) = click_name decls
    ∧ kw_type (attrs (base o)) = kw_type kw
    ∧ kw_default (attrs (base o)) = kw_default kw
    ∧ (∀ m, m ∈ mut_ex_opts o ↔ m ∈ default [] (kw_mutually_exclusive kw))
    ∧ help o = Some (PyStr (h +:+ note)).
Proof.
  intros Hh. unfold click_option.
  destruct (init_cases click_name decls kw)
    as [[Hl ->]|[(Hl & h' & Hh' & ->)|(_ & Hn & _)]]; [| |congruence].
  - eexists _, "". simpl. rewrite Hl, append_nil_r. split_and!; try done.
    intros m. simpl. by rewrite elem_of_empty, elem_of_nil.
  - rewrite Hh in Hh'. injection Hh' as <-.
    eexists _, _. simpl. split_and!; try done.
    intros m. simpl. apply elem_of_list_to_set.
Qed.

Ltac attach_option d o Ho :=
  match goal with
  | |- context [click_option click_name d ?kw] =>
      destruct (click_option_total d kw _ eq_refl) as (o & ? & Ho);
      simpl in Ho
  end.

(** X10: with a [mutex] argument too, the bare and the called form of
    [job_dir] and of [config_file] agree; neither can fail, and the option
    attached is named after the factory's flags and has exactly the names
    of [mutex] as companions. *)
Theorem factories_with_mutex f (mutex : option (list string)) :
  (∃ w o,
     job_dir click_name [] mutex = Return (Wrapper w)
     ∧ job_dir click_name [f] mutex = (f' ← w f; Return (Func f'))
     ∧ w f = Return {| fn := fn f;
                       __click_params__ := __click_params__ f ++ [o] |}
     ∧ name (base o) = click_name ["-j"; "--job-dir"]
     ∧ ∀ m, m ∈ mut_ex_opts o ↔ m ∈ default [] mutex)
  ∧ (∃ w o,
       config_file click_name [] mutex = Return (Wrapper w)
       ∧ config_file click_name [f] mutex = (f' ← w f; Return (Func f'))
       ∧ w f = Return {| fn := fn f;
                         __click_params__ := __click_params__ f ++ [o] |}
       ∧ name (base o) = click_name ["-c"; "--config-file"]
       ∧ ∀ m, m ∈ mut_ex_opts o ↔ m ∈ default [] mutex).
Proof.
  split.
  - unfold job_dir. attach_option ["-j"; "--job-dir"] o Ho.
    destruct Ho as (E & _ & Hn & _ & _ & Hm & _).
    eexists _, o. split_and!; [reflexivity | reflexivity | apply E | done..].
  - unfold config_file. attach_option ["-c"; "--config-file"] o Ho.
    destruct Ho as (E & _ & Hn & _ & _ & Hm & _).
    eexists _, o. split_and!; [reflexivity | reflexivity | apply E | done..].
Qed.

(** X11: the two decorators compose: applied one after the other, in
    either order, they add the same two options to the end of the
    function's parameters, in the order of application, and leave the body
    and the parameters already attached alone. *)
Theorem stacked_factories f (m1 m2 : option (list string)) :
  ∃ wj wc oj oc,
    job_dir click_name [] m1 = Return (Wrapper wj)
    ∧ config_file click_name [] m2 = Return (Wrapper wc)
    ∧ (f' ← wc f; wj f') =
      Return {| fn := fn f;
                __click_params__ := __click_params__ f ++ [oc; oj] |}
    ∧ (f' ← wj f; wc f') =
      Return {| fn := fn f;
                __click_params__ := __click_params__ f ++ [oj; oc] |}
    ∧ name (base oj) = click_name ["-j"; "--job-dir"]
    ∧ name (base oc) = click_name ["-c"; "--config-file"]
    ∧ (∀ m, m ∈ mut_ex_opts oj ↔ m ∈ default [] m1)
    ∧ (∀ m, m ∈ mut_ex_opts oc ↔ m ∈ default [] m2).
Proof.
  unfold job_dir, config_file.
  attach_option ["-j"; "--job-dir"] oj Hj. destruct Hj as (Ej & _ & Hnj & _ & _ & Hmj & _).
  attach_option ["-c"; "--config-file"] oc Hc. destruct Hc as (Ec & _ & Hnc & _ & _ & Hmc & _).
  eexists _, _, oj, oc.
  split; [reflexivity|]. split; [reflexivity|].
  split_and!; try done.
  - cbv beta. rewrite Ec. unfold mbind, result_bind. rewrite Ej. simpl.
    by rewrite <- app_assoc.
  - cbv beta. rewrite Ej. unfold mbind, result_bind. rewrite Ec. simpl.
    by rewrite <- app_assoc.
Qed.

End Decorators.

(** ** Two options declared against each other *)

Section EndToEnd.

Context {F : Type}.
Variable click_name : list string → string.

Implicit Types (f : func F).

Lemma click_option_named decls kw h nm :
  kw_help kw = Some (PyStr h) →
  click_name decls = nm →
  ∃ o,
    (∀ f, click_option click_name decls kw f =
          Return {| fn := fn f;
                    __click_params__ := __click_params__ f ++ [o] |})
    ∧ ∀ (Ctx : Type) (ctx : Ctx) opts args,
        (∃ e, handle_parse_result o ctx opts args = Raised e)
        ↔ nm ∈ dom opts
          ∧ ∃ m, m ∈ default [] (kw_mutually_exclusive kw) ∧ m ∈ dom opts.
Proof.
  intros Hh Hnm.
  destruct (click_option_total (F := F) click_name decls kw h Hh)
    as (o & note & E & _ & Hn & _ & _ & Hm & _).
  exists o. split; [exact E|]. intros Ctx ctx opts args.
  rewrite raises_iff_violation. unfold violation. rewrite Hn, Hnm.
  split; intros (? & m & ? & ?); (split; [done|]); exists m;
    (split; [by apply Hm | done]).
Qed.

(** X12: a command that declares [--job-dir] and [--config-file] each with
    the other as companion: each of the two options is rejected exactly
    when both are supplied, so either one alone passes. *)
Theorem job_dir_config_file_exclusive f :
  click_name ["-j"; "--job-dir"] = "job_dir" →
  click_name ["-c"; "--config-file"] = "config_file" →
  ∃ wj wc oj oc,
    job_dir click_name [] (Some ["config_file"]) = Return (Wrapper wj)
    ∧ config_file click_name [] (Some ["job_dir"]) = Return (Wrapper wc)
    ∧ (f' ← wc f; wj f') =
      Return {| fn := fn f;
                __click_params__ := __click_params__ f ++ [oc; oj] |}
    ∧ ∀ (Ctx : Type) (ctx : Ctx) opts args,
        ((∃ e, handle_parse_result oj ctx opts args = Raised e)
           ↔ "job_dir" ∈ dom opts ∧ "config_file" ∈ dom opts)
        ∧ ((∃ e, handle_parse_result oc ctx opts args = Raised e)
             ↔ "job_dir" ∈ dom opts ∧ "config_file" ∈ dom opts).
Proof.
  intros Hj Hc. unfold job_dir, config_file.
  match goal with
  | |- context [click_option click_name ["-j"; "--job-dir"] ?kw] =>
      destruct (click_option_named ["-j"; "--job-dir"] kw _ _ eq_refl Hj)
        as (oj & Ej & Hoj)
  end.
  match goal with
  | |- context [click_option click_name ["-c"; "--config-file"] ?kw] =>
      destruct (click_option_named ["-c"; "--config-file"] kw _ _ eq_refl Hc)
        as (oc & Ec & Hoc)
  end.
  simpl in Hoj, Hoc. eexists _, _, oj, oc.
  split; [reflexivity|]. split; [reflexivity|]. split.
  - cbv beta. rewrite Ec. unfold mbind, result_bind. rewrite Ej. simpl.
    by rewrite <- app_assoc.
  - intros Ctx ctx opts args. rewrite Hoj, Hoc. split.
    + split.
      * intros (? & m & ->%list_elem_of_singleton & ?). done.
      * intros [? ?]. split; [done|]. exists "config_file".
        split; [by apply list_elem_of_singleton | done].
    + split.
      * intros (? & m & ->%list_elem_of_singleton & ?). done.
      * intros [? ?]. split; [done|]. exists "job_dir".
        split; [by apply list_elem_of_singleton | done].
Qed.

(** X13: exclusivity is declared one way: when only [--job-dir] names
    [--config-file] as companion, supplying both is rejected by the
    [--job-dir] option and never by the [--config-file] option. *)
Theorem exclusivity_is_one_directional f :
  click_name ["-j"; "--job-dir"] = "job_dir" →
  click_name ["-c"; "--config-file"] = "config_file" →
  ∃ wj wc oj oc,
    job_dir click_name [] (Some ["config_file"]) = Return (Wrapper wj)
    ∧ config_file click_name [] None = Return (Wrapper wc)
    ∧ (f' ← wc f; wj f') =
      Return {| fn := fn f;
                __click_params__ := __click_params__ f ++ [oc; oj] |}
    ∧ ∀ (Ctx : Type) (ctx : Ctx) opts args,
        ((∃ e, handle_parse_result oj ctx opts args = Raised e)
           ↔ "job_dir" ∈ dom opts ∧ "config_file" ∈ dom opts)
        ∧ handle_parse_result oc ctx opts args = Delegated ctx opts args.
Proof.
  intros Hj Hc. unfold job_dir, config_file.
  match goal with
  | |- context [click_option click_name ["-j"; "--job-dir"] ?kw] =>
      destruct (click_option_named ["-j"; "--job-dir"] kw _ _ eq_refl Hj)
        as (oj & Ej & Hoj)
  end.
  match goal with
  | |- context [click_option click_name ["-c"; "--config-file"] ?kw] =>
      destruct (click_option_named ["-c"; "--config-file"] kw _ _ eq_refl Hc)
        as (oc & Ec & Hoc)
  end.
  simpl in Hoj, Hoc. eexists _, _, oj, oc.
  split; [reflexivity|]. split; [reflexivity|]. split.
  - cbv beta. rewrite Ec. unfold mbind, result_bind. rewrite Ej. simpl.
    by rewrite <- app_assoc.
  - intros Ctx ctx opts args. rewrite Hoj. split.
    + split.
      * intros (? & m & ->%list_elem_of_singleton & ?). done.
      * intros [? ?]. split; [done|]. exists "config_file".
        split; [by apply list_elem_of_singleton | done].
    + destruct (handle_parse_result_cases oc ctx opts args)
        as [[Hv E]|[_ ->]]; [|done].
      assert (∃ e, handle_parse_result oc ctx opts args = Raised e) as Hr
        by eauto.
      apply Hoc in Hr as (_ & m & Hm & _). by apply elem_of_nil in Hm.
Qed.

End EndToEnd.

Lemma job_dir_config_file_exclusive_witness :
  ∃ oj oc : MutuallyExclusiveOption.t,
    ∀ opts : gmap string pyval,
      ((∃ e, handle_parse_result oj () opts [] = Raised e)
         ↔ "job_dir" ∈ dom opts ∧ "config_file" ∈ dom opts)
      ∧ ((∃ e, handle_parse_result oc () opts [] = Raised e)
           ↔ "job_dir" ∈ dom opts ∧ "config_file" ∈ dom opts).
Proof.
  destruct (job_dir_config_file_exclusive Click.name_of_decls some_func)
    as (wj & wc & oj & oc & _ & _ & _ & H);
    [vm_compute; reflexivity | vm_compute; reflexivity |].
  exists oj, oc. intros opts. apply (H unit () opts []).
Defined.

Lemma exclusivity_is_one_directional_witness :
  ∃ oj oc : MutuallyExclusiveOption.t,
    ∀ opts : gmap string pyval,
      ((∃ e, handle_parse_result oj () opts [] = Raised e)
         ↔ "job_dir" ∈ dom opts ∧ "config_file" ∈ dom opts)
      ∧ handle_parse_result oc () opts [] = Delegated () opts [].
Proof.
  destruct (exclusivity_is_one_directional Click.name_of_decls some_func)
    as (wj & wc & oj & oc & _ & _ & _ & H);
    [vm_compute; reflexivity | vm_compute; reflexivity |].
  exists oj, oc. intros opts. apply (H unit () opts []).
Defined.

(** ** The config file option *)

Section ConfigFile.

Context {F : Type}.
Variable click_name : list string → string.

(** X14: [-c/--config-file] is declared with a path type that does not
    ask for the file to exist, and without a default; its help text names
    [klio-job.yaml] as the default.  Under the host framework a supplied
    path that does not exist is accepted as given, one that exists is
    accepted when it can be read, and when the option is not supplied its
    value is [None]. *)
Theorem config_file_declaration (f : func F) (mutex : option (list string)) :
  ∃ o,
    config_file click_name [f] mutex =
    Return (Func {| fn := fn f;
                    __click_params__ := __click_params__ f ++ [o] |})
    ∧ param_decls (base o) = ["-c"; "--config-file"]
    ∧ kw_type (attrs (base o)) = Some (Path false)
    ∧ kw_default (attrs (base o)) = None
    ∧ (∃ text, help o = Some (PyStr text)
         ∧ contains "Defaults to ``klio-job.yaml``." text = true)
    ∧ ∀ (Ctx : Type) (env : Click.env) (ctx : Ctx) opts args,
        ¬ violation o opts →
        (opts !! name (base o) = None →
           run_handle_parse_result (Click.handle_parse_result env)
             o ctx opts args = Return (PyNone, args))
        ∧ (∀ p, opts !! name (base o) = Some (PyStr p) →
             (Click.path_exists env p = false →
                run_handle_parse_result (Click.handle_parse_result env)
                  o ctx opts args = Return (PyStr p, args))
             ∧ (Click.path_exists env p = true →
                Click.path_readable env p = true →
                  run_handle_parse_result (Click.handle_parse_result env)
                    o ctx opts args = Return (PyStr p, args))).
Proof.
  unfold config_file.
  match goal with
  | |- context [click_option click_name ?d ?kw f] =>
      destruct (click_option_total (F := F) click_name d kw _ eq_refl)
        as (o & note & E & Hd & _ & Hty & Hdef & _ & Hhelp)
  end.
  rewrite E. simpl in Hty, Hdef. exists o.
  split; [reflexivity|]. split; [exact Hd|]. split; [exact Hty|].
  split; [exact Hdef|]. split.
  { eexists. split; [exact Hhelp|]. by apply contains_append_r. }
  intros Ctx env ctx opts args Hv. unfold run_handle_parse_result.
  destruct (handle_parse_result_cases o ctx opts args) as [[? _]|[_ ->]];
    [done|].
  unfold Click.handle_parse_result, Click.convert. rewrite Hty, Hdef.
  split.
  - by intros ->.
  - intros p ->. simpl. split; [by intros ->|]. by intros -> ->.
Qed.

End ConfigFile.
